(** * Confidential commitment token: commitment algebra and ledger

    A shallow embedding of [con_privacy_token.py] (the on-chain ledger) and
    [client_helper.py] (the off-chain transition planner), together with the
    number theory the commitment algebra rests on: the modulus
    [p = 2^255 - 19] is prime, which is what makes [mod_inverse] an inverse.

    The file has two parts: the definitions, read off the two sources, and
    the facts proved about them. *)

From Stdlib Require Import ZArith Znumtheory Zpow_facts Lia List Bool.
From Stdlib Require Import String Ascii QArith DecimalString.
From Stdlib Require Import Zmod.ZmodInv.
From stdpp Require Import base option gmap strings.
Import ListNotations.

#[local] Open Scope Z_scope.

(** * Part I: definitions *)

(** ** Primality certificates (Lucas criterion, Pratt chains) *)

Module Primality.

(** One link of a Pratt chain: the number [N], a generator [a] of the units
    modulo [N], and the factorisation of [N - 1] as primes with exponents. *)
Definition entry : Type := Z * Z * list (Z * Z).

Definition factors_product (fs : list (Z * Z)) : Z :=
  fold_right (fun qk acc => fst qk ^ snd qk * acc) 1 fs.

Definition check_entry (known : list Z) (e : entry) : bool :=
  let '(N, a, fs) := e in
  (1 <? N)
  && (factors_product fs =? N - 1)
  && forallb (fun qk => (0 <? snd qk) && existsb (Z.eqb (fst qk)) known) fs
  && (Zpow_mod a (N - 1) N =? 1)
  && forallb (fun qk => negb (Zpow_mod a ((N - 1) / fst qk) N =? 1)) fs.

Fixpoint check_chain (known : list Z) (es : list entry) : bool :=
  match es with
  | [] => true
  | e :: es' => check_entry known e && check_chain (fst (fst e) :: known) es'
  end.

(** A Pratt chain for the field modulus [2^255 - 19]; every factor is
    certified by an earlier link, down to the prime [2]. *)
Definition p25519_chain : list entry :=
  [
  (17, 3, [(2, 4)]);
  (3, 2, [(2, 1)]);
  (7, 3, [(2, 1); (3, 1)]);
  (239, 7, [(2, 1); (7, 1); (17, 1)]);
  (479, 13, [(2, 1); (239, 1)]);
  (32573, 2, [(2, 2); (17, 1); (479, 1)]);
  (65147, 2, [(2, 1); (32573, 1)]);
  (5, 2, [(2, 2)]);
  (11, 2, [(2, 1); (5, 1)]);
  (353, 3, [(2, 5); (11, 1)]);
  (29, 2, [(2, 2); (7, 1)]);
  (59, 2, [(2, 1); (29, 1)]);
  (487, 3, [(2, 1); (3, 5)]);
  (57467, 2, [(2, 1); (59, 1); (487, 1)]);
  (13, 2, [(2, 2); (3, 1)]);
  (131, 2, [(2, 1); (5, 1); (13, 1)]);
  (132049, 26, [(2, 4); (3, 2); (7, 1); (131, 1)]);
  (43, 3, [(2, 1); (3, 1); (7, 1)]);
  (23, 5, [(2, 1); (11, 1)]);
  (3727, 3, [(2, 1); (3, 4); (23, 1)]);
  (1923133, 2, [(2, 2); (3, 1); (43, 1); (3727, 1)]);
  (31, 3, [(2, 1); (3, 1); (5, 1)]);
  (53, 2, [(2, 2); (13, 1)]);
  (107, 2, [(2, 1); (53, 1)]);
  (37, 2, [(2, 2); (3, 2)]);
  (223, 3, [(2, 1); (3, 1); (37, 1)]);
  (173, 2, [(2, 2); (43, 1)]);
  (4153, 5, [(2, 3); (3, 1); (173, 1)]);
  (41, 6, [(2, 3); (5, 1)]);
  (1723, 3, [(2, 1); (3, 1); (7, 1); (41, 1)]);
  (430751, 17, [(2, 1); (5, 3); (1723, 1)]);
  (31757755568855353, 10, [(2, 3); (3, 1); (31, 1); (107, 1); (223, 1);
     (4153, 1); (430751, 1)]);
  (19, 2, [(2, 1); (3, 2)]);
  (83, 2, [(2, 1); (41, 1)]);
  (9463, 3, [(2, 1); (3, 1); (19, 1); (83, 1)]);
  (37853, 2, [(2, 2); (9463, 1)]);
  (75707, 2, [(2, 1); (37853, 1)]);
  (2437, 2, [(2, 2); (3, 1); (7, 1); (29, 1)]);
  (97, 5, [(2, 5); (3, 1)]);
  (419, 2, [(2, 1); (11, 1); (19, 1)]);
  (569003, 2, [(2, 1); (7, 1); (97, 1); (419, 1)]);
  (2773320623, 5, [(2, 1); (2437, 1); (569003, 1)]);
  (72106336199, 7, [(2, 1); (13, 1); (2773320623, 1)]);
  (47, 5, [(2, 1); (23, 1)]);
  (127, 3, [(2, 1); (3, 2); (7, 1)]);
  (103, 5, [(2, 1); (3, 1); (17, 1)]);
  (991, 6, [(2, 1); (3, 2); (5, 1); (11, 1)]);
  (8574133, 2, [(2, 2); (3, 1); (7, 1); (103, 1); (991, 1)]);
  (1919519569386763, 2, [(2, 1); (3, 1); (7, 1); (19, 1); (47, 2); (127, 1);
     (8574133, 1)]);
  (75445702479781427272750846543864801, 7, [(2, 5); (3, 2); (5, 2);
     (75707, 1); (72106336199, 1); (1919519569386763, 1)]);
  (74058212732561358302231226437062788676166966415465897661863160754340907, 2,
    [(2, 1);
     (3, 1); (353, 1); (57467, 1); (132049, 1); (1923133, 1);
     (31757755568855353, 1); (75445702479781427272750846543864801, 1)]);
  (57896044618658097711785492504343953926634992332820282019728792003956564819949, 2,
    [(2, 2);
     (3, 1); (65147, 1);
     (74058212732561358302231226437062788676166966415465897661863160754340907, 1)])
  ].

End Primality.

(** ** The host's hash: SHA3-256 (FIPS 202) over byte lists *)

Module SHA3.

Definition mask64 : Z := 2 ^ 64 - 1.

Definition rotl64 (x : Z) (n : Z) : Z :=
  Z.land (Z.lor (Z.shiftl x n) (Z.shiftr x (64 - n))) mask64.

Definition round_constants : list Z :=
  [ 0x0000000000000001; 0x0000000000008082; 0x800000000000808A;
    0x8000000080008000; 0x000000000000808B; 0x0000000080000001;
    0x8000000080008081; 0x8000000000008009; 0x000000000000008A;
    0x0000000000000088; 0x0000000080008009; 0x000000008000000A;
    0x000000008000808B; 0x800000000000008B; 0x8000000000008089;
    0x8000000000008003; 0x8000000000008002; 0x8000000000000080;
    0x000000000000800A; 0x800000008000000A; 0x8000000080008081;
    0x8000000000008080; 0x0000000080000001; 0x8000000080008008 ].

(** Rotation offsets, stored at index [x + 5 * y]. *)
Definition rotation_offsets : list Z :=
  [  0;  1; 62; 28; 27;
    36; 44;  6; 55; 20;
     3; 10; 43; 25; 39;
    41; 45; 15; 21;  8;
    18;  2; 61; 56; 14 ].

Definition lane (st : list Z) (x y : nat) : Z := nth (x + 5 * y) st 0.

Definition theta (st : list Z) : list Z :=
  let C x := fold_left Z.lxor (map (lane st x) (seq 0 5)) 0 in
  let D x := Z.lxor (C ((x + 4) mod 5)%nat) (rotl64 (C ((x + 1) mod 5)%nat) 1) in
  map (fun i => Z.lxor (nth i st 0) (D (i mod 5)%nat)) (seq 0 25).

Definition rho_pi (st : list Z) : list Z :=
  map (fun i =>
         let X := (i mod 5)%nat in
         let Y := (i / 5)%nat in
         let x := ((X + 3 * Y) mod 5)%nat in
         rotl64 (lane st x X) (nth (x + 5 * X) rotation_offsets 0))
      (seq 0 25).

Definition chi (st : list Z) : list Z :=
  map (fun i =>
         let x := (i mod 5)%nat in
         let y := (i / 5)%nat in
         Z.lxor (lane st x y)
                (Z.ldiff (lane st ((x + 2) mod 5) y) (lane st ((x + 1) mod 5) y)))
      (seq 0 25).

Definition iota (rc : Z) (st : list Z) : list Z :=
  match st with
  | [] => []
  | a :: rest => Z.lxor a rc :: rest
  end.

Definition keccak_round (st : list Z) (rc : Z) : list Z :=
  iota rc (chi (rho_pi (theta st))).

Definition keccak_f (st : list Z) : list Z :=
  fold_left keccak_round round_constants st.

(** SHA3-256: rate 136 bytes, domain byte 0x06, digest 32 bytes. *)
Definition rate : nat := 136.

Fixpoint update_nth (i : nat) (f : Z -> Z) (l : list Z) : list Z :=
  match l, i with
  | [], _ => []
  | a :: r, O => f a :: r
  | a :: r, S j => a :: update_nth j f r
  end.

Definition xor_byte (st : list Z) (pos : nat) (b : Z) : list Z :=
  update_nth (pos / 8) (fun w => Z.lxor w (Z.shiftl b (8 * Z.of_nat (pos mod 8)))) st.

Definition absorb_byte (sp : list Z * nat) (b : Z) : list Z * nat :=
  let '(st, pos) := sp in
  let st' := xor_byte st pos b in
  if Nat.eqb (S pos) rate then (keccak_f st', O) else (st', S pos).

Definition byte_at (st : list Z) (k : nat) : Z :=
  Z.land (Z.shiftr (nth (k / 8) st 0) (8 * Z.of_nat (k mod 8))) 255.

Definition sha3_256 (msg : list Z) : list Z :=
  let '(st, pos) := fold_left absorb_byte msg (repeat 0 25, O) in
  let st := xor_byte (xor_byte st pos 0x06) (rate - 1) 0x80 in
  map (byte_at (keccak_f st)) (seq 0 32).

Definition hex_char (d : Z) : ascii :=
  ascii_of_N (Z.to_N (if d <? 10 then 48 + d else 87 + d)).

Fixpoint hexlify (bs : list Z) : string :=
  match bs with
  | [] => EmptyString
  | b :: r => String (hex_char (b / 16)) (String (hex_char (b mod 16)) (hexlify r))
  end.

Fixpoint encode (s : string) : list Z :=
  match s with
  | EmptyString => []
  | String c r => Z.of_N (N_of_ascii c) :: encode r
  end.

(** [hashlib.sha3] as the test harness pins it: the hexadecimal SHA3-256
    digest of the UTF-8 bytes of the text. *)
Definition sha3 (s : string) : string := hexlify (sha3_256 (encode s)).

End SHA3.

(** ** Python built-ins used by the contract and the planner *)

Module Py.

(** One hexadecimal digit, as [int(_, 16)] reads it. *)
Definition hex_digit (c : ascii) : option Z :=
  let n := Z.of_N (N_of_ascii c) in
  if (48 <=? n) && (n <=? 57) then Some (n - 48)
  else if (97 <=? n) && (n <=? 102) then Some (n - 87)
  else if (65 <=? n) && (n <=? 70) then Some (n - 55)
  else None.

Fixpoint int16_from (acc : Z) (s : string) : option Z :=
  match s with
  | EmptyString => Some acc
  | String c r =>
      match hex_digit c with
      | Some d => int16_from (16 * acc + d) r
      | None => None
      end
  end.

(** [int(s, 16)] on a string of hexadecimal digits; [None] stands for
    [ValueError]. (Signs, prefixes and separators never occur in a digest.) *)
Definition int16 (s : string) : option Z :=
  match s with
  | EmptyString => None
  | _ => int16_from 0 s
  end.

(** [s[:n]] *)
Definition slice_to (n : nat) (s : string) : string := substring 0 n s.

(** A number handed to [str]: an [int], or a [float] given by the text
    [str] renders for it (the shortest round-trip decimal, e.g. ["10.5"]). *)
Inductive value : Type :=
| VInt (n : Z)
| VFloat (repr : string).

Definition str (v : value) : string :=
  match v with
  | VInt n => NilZero.string_of_int (Z.to_int n)
  | VFloat repr => repr
  end.

(** [x or d] on numbers: [d] replaces a falsy (zero) [x]. *)
Definition or_Z (x d : Z) : Z := if x =? 0 then d else x.
Definition or_Q (x d : Q) : Q := if Qeq_bool x 0 then d else x.

End Py.

(** ** [con_privacy_token.py]: parameters and helpers *)

Module Token.
Import SHA3 Py.

Definition p : Z := 2 ^ 255 - 19.

Definition map_to_base (tag : string) : option Z :=
  n ← int16 (slice_to 32 (sha3 ("XCTOK:gen:" +:+ tag)));
  Some (n mod (p - 3) + 2).

(** The body of the [while exponent > 0] loop, unrolled at most [fuel]
    times; [None] means the fuel ran out before the loop exited. *)
Fixpoint mod_exp_loop (fuel : nat) (result base exponent modulus : Z) : option Z :=
  if exponent >? 0 then
    match fuel with
    | O => None
    | S fuel' =>
        let result :=
          if exponent mod 2 =? 1 then (result * base) mod modulus else result in
        let exponent := Z.shiftr exponent 1 in
        let base := (base * base) mod modulus in
        mod_exp_loop fuel' result base exponent modulus
    end
  else Some result.

(** Iterations the loop needs: one per binary digit of the exponent. *)
Definition mod_exp_fuel (exponent : Z) : nat := S (Z.to_nat (Z.log2 exponent)).

Definition mod_exp (base exponent modulus : Z) : Z :=
  if exponent =? 0 then 1
  else default 1 (mod_exp_loop (mod_exp_fuel exponent) 1 (base mod modulus)
                               exponent modulus).

Definition mod_inverse (x modulus : Z) : Z := mod_exp x (modulus - 2) modulus.

(** Generators, computed once when the module is loaded. *)
Definition g : Z := Eval vm_compute in default 0 (map_to_base "g").
Definition h : Z := Eval vm_compute in default 0 (map_to_base "h").

Definition create_commitment (value : value) (blinding : Z) : option Z :=
  n ← int16 (slice_to 32 (sha3 ("VAL|" +:+ str value)));
  let val_hash := n mod (p - 1) in
  Some ((mod_exp g val_hash p * mod_exp h (blinding mod (p - 1)) p) mod p).

Definition verify_commitment_addition
    (old_commitment amount_commitment new_commitment : Z) : bool :=
  let expected_new := (old_commitment * amount_commitment) mod p in
  new_commitment =? expected_new.

Definition verify_commitment_subtraction
    (old_commitment new_commitment amount_commitment : Z) : bool :=
  let expected_old := (new_commitment * amount_commitment) mod p in
  old_commitment =? expected_old.

(** The module-level [assert] on the generators. *)
Definition generators_ok : bool :=
  negb (g =? h) && negb ((g =? 1) || (g =? p - 1))
  && negb ((h =? 1) || (h =? p - 1)).

Definition ZERO_COMMITMENT : Z := 1.

End Token.

(** ** [con_privacy_token.py]: state, operations and the host's commit rule *)

Module Ledger.
Import Py Token.

(** [balance_commitments[address]] *)
Record BalanceRecord : Type := {
  commitment : Z;
  last_updated : Z;
  updates : Z
}.

(** [approvals[owner, spender]] *)
Record ApprovalRecord : Type := {
  approval_commitment : Z;
  approved_at : Z
}.

(** The five keys of [metadata] that [seed] creates. *)
Record Metadata : Type := {
  name : string;
  symbol : string;
  operator : string;
  total_supply : Q;
  supply_commitment : Z
}.

Inductive Event : Type :=
| ConfidentialTransferEvent (from to : string) (amount_commitment tx_id : Z)
| ConfidentialApproveEvent (owner spender : string) (allowance_commitment tx_id : Z)
| MintCommitmentEvent (to : string) (amount : Q) (amount_commitment tx_id : Z)
| BurnCommitmentEvent (from : string) (amount : Q) (amount_commitment tx_id : Z).

Record State : Type := {
  balance_commitments : gmap string BalanceRecord;
  approvals : gmap (string * string) ApprovalRecord;
  metadata : Metadata;
  nonces : gmap string Z;
  next_tx_id : Z;
  events : list Event
}.

(** What the host supplies to a call: [ctx.caller] and [block_num]. *)
Record Ctx : Type := {
  caller : string;
  block_num : Z
}.

(** One constructor per [assert] message. *)
Inductive Error : Type :=
| Cannot_transfer_to_self
| Bad_nonce
| Sender_commitment_mismatch
| Receiver_commitment_mismatch
| Use_confidential_transfer_for_self_to_self
| Owner_has_no_commitment
| No_approval_for_spender
| Owner_commitment_mismatch
| Allowance_commitment_mismatch
| Only_operator_can_mint
| Not_authorized_to_burn
| No_commitment_to_burn_from
| From_commitment_mismatch.

(** Contract code runs against the pending state; a failed [assert] stops it
    and leaves the writes made so far pending. *)
Definition M (A : Type) : Type := State -> (Error + A) * State.

#[local] Instance M_ret : MRet M := fun A a s => (inr a, s).
#[local] Instance M_bind : MBind M := fun A B f m s =>
  match m s with
  | (inr a, s') => f a s'
  | (inl e, s') => (inl e, s')
  end.

Definition gets {A : Type} (f : State -> A) : M A := fun s => (inr (f s), s).
Definition modify (f : State -> State) : M unit := fun s => (inr tt, f s).
Definition assert (b : bool) (e : Error) : M unit :=
  fun s => if b then (inr tt, s) else (inl e, s).

Definition set_balance (k : string) (r : BalanceRecord) : M unit :=
  modify (fun s =>
    {| balance_commitments := <[k := r]> (balance_commitments s);
       approvals := approvals s; metadata := metadata s; nonces := nonces s;
       next_tx_id := next_tx_id s; events := events s |}).

Definition set_approval (k : string * string) (r : ApprovalRecord) : M unit :=
  modify (fun s =>
    {| balance_commitments := balance_commitments s;
       approvals := <[k := r]> (approvals s); metadata := metadata s;
       nonces := nonces s; next_tx_id := next_tx_id s; events := events s |}).

Definition set_nonce (k : string) (n : Z) : M unit :=
  modify (fun s =>
    {| balance_commitments := balance_commitments s; approvals := approvals s;
       metadata := metadata s; nonces := <[k := n]> (nonces s);
       next_tx_id := next_tx_id s; events := events s |}).

Definition set_supply (total : Q) (cmt : Z) : M unit :=
  modify (fun s =>
    {| balance_commitments := balance_commitments s; approvals := approvals s;
       metadata :=
         {| name := name (metadata s); symbol := symbol (metadata s);
            operator := operator (metadata s);
            total_supply := total; supply_commitment := cmt |};
       nonces := nonces s; next_tx_id := next_tx_id s; events := events s |}).

Definition set_next_tx_id (n : Z) : M unit :=
  modify (fun s =>
    {| balance_commitments := balance_commitments s; approvals := approvals s;
       metadata := metadata s; nonces := nonces s;
       next_tx_id := n; events := events s |}).

Definition emit (e : Event) : M unit :=
  modify (fun s =>
    {| balance_commitments := balance_commitments s; approvals := approvals s;
       metadata := metadata s; nonces := nonces s;
       next_tx_id := next_tx_id s; events := events s ++ [e] |}).

(** [@construct seed] *)
Definition seed (ctx : Ctx) : State :=
  {| balance_commitments := ∅;
     approvals := ∅;
     metadata :=
       {| name := "Confidential Commitment Token"; symbol := "CCT";
          operator := caller ctx;
          total_supply := 0; supply_commitment := ZERO_COMMITMENT |};
     nonces := ∅;
     next_tx_id := 1;
     events := [] |}.

(** Views *)
Definition get_nonce (s : State) (address : string) : Z :=
  match nonces s !! address with
  | Some n => n
  | None => 0
  end.

Definition bump_nonce (addr : string) (provided : Z) : M unit :=
  current ← gets (fun s => nonces s !! addr);
  let current := default 0 current in
  assert (provided =? current + 1) Bad_nonce;;
  set_nonce addr provided.

Definition next_tx : M Z :=
  tid ← gets next_tx_id;
  set_next_tx_id (tid + 1);;
  mret tid.

(** [data['commitment'] if data else ZERO_COMMITMENT] *)
Definition commitment_or_zero (data : option BalanceRecord) : Z :=
  match data with
  | Some d => commitment d
  | None => ZERO_COMMITMENT
  end.

(** [(0 if data is None else data['updates']) + 1] *)
Definition next_updates (data : option BalanceRecord) : Z :=
  match data with
  | None => 0
  | Some d => updates d
  end + 1.

Definition confidential_transfer (ctx : Ctx) (to : string)
    (amount_commitment new_sender_commitment new_receiver_commitment nonce : Z)
    : M unit :=
  assert (negb (String.eqb to (caller ctx))) Cannot_transfer_to_self;;
  bump_nonce (caller ctx) nonce;;
  sender_data ← gets (fun s => balance_commitments s !! caller ctx);
  receiver_data ← gets (fun s => balance_commitments s !! to);
  let current_sender_commitment := commitment_or_zero sender_data in
  let current_receiver_commitment := commitment_or_zero receiver_data in
  assert (verify_commitment_subtraction current_sender_commitment
            new_sender_commitment amount_commitment)
         Sender_commitment_mismatch;;
  assert (verify_commitment_addition current_receiver_commitment
            amount_commitment new_receiver_commitment)
         Receiver_commitment_mismatch;;
  set_balance (caller ctx)
    {| commitment := new_sender_commitment; last_updated := block_num ctx;
       updates := next_updates sender_data |};;
  set_balance to
    {| commitment := new_receiver_commitment; last_updated := block_num ctx;
       updates := next_updates receiver_data |};;
  tx_id ← next_tx;
  emit (ConfidentialTransferEvent (caller ctx) to amount_commitment tx_id).

Definition confidential_approve (ctx : Ctx) (spender : string)
    (allowance_commitment nonce : Z) : M unit :=
  bump_nonce (caller ctx) nonce;;
  set_approval (caller ctx, spender)
    {| approval_commitment := allowance_commitment;
       approved_at := block_num ctx |};;
  tx_id ← next_tx;
  emit (ConfidentialApproveEvent (caller ctx) spender allowance_commitment tx_id).

Definition confidential_transfer_from (ctx : Ctx) (owner to : string)
    (amount_commitment new_owner_commitment new_receiver_commitment
     new_allowance_commitment nonce : Z) : M unit :=
  assert (negb (String.eqb to owner)) Use_confidential_transfer_for_self_to_self;;
  bump_nonce (caller ctx) nonce;;
  owner_data ← gets (fun s => balance_commitments s !! owner);
  match owner_data with
  | None => assert false Owner_has_no_commitment
  | Some owner_rec =>
      receiver_data ← gets (fun s => balance_commitments s !! to);
      let current_owner_commitment := commitment owner_rec in
      let current_receiver_commitment := commitment_or_zero receiver_data in
      approval ← gets (fun s => approvals s !! (owner, caller ctx));
      match approval with
      | None => assert false No_approval_for_spender
      | Some approval_rec =>
          let current_allowance_commitment := approval_commitment approval_rec in
          assert (verify_commitment_subtraction current_owner_commitment
                    new_owner_commitment amount_commitment)
                 Owner_commitment_mismatch;;
          assert (verify_commitment_addition current_receiver_commitment
                    amount_commitment new_receiver_commitment)
                 Receiver_commitment_mismatch;;
          assert (verify_commitment_subtraction current_allowance_commitment
                    new_allowance_commitment amount_commitment)
                 Allowance_commitment_mismatch;;
          set_balance owner
            {| commitment := new_owner_commitment;
               last_updated := block_num ctx;
               updates := updates owner_rec + 1 |};;
          set_balance to
            {| commitment := new_receiver_commitment;
               last_updated := block_num ctx;
               updates := next_updates receiver_data |};;
          set_approval (owner, caller ctx)
            {| approval_commitment := new_allowance_commitment;
               approved_at := approved_at approval_rec |};;
          tx_id ← next_tx;
          emit (ConfidentialTransferEvent owner to amount_commitment tx_id)
      end
  end.

Definition mint (ctx : Ctx) (to : string) (amount : Q)
    (amount_commitment new_receiver_commitment nonce : Z) : M unit :=
  op ← gets (fun s => operator (metadata s));
  assert (String.eqb (caller ctx) op) Only_operator_can_mint;;
  bump_nonce (caller ctx) nonce;;
  receiver_data ← gets (fun s => balance_commitments s !! to);
  let current_receiver_commitment := commitment_or_zero receiver_data in
  assert (verify_commitment_addition current_receiver_commitment
            amount_commitment new_receiver_commitment)
         Receiver_commitment_mismatch;;
  set_balance to
    {| commitment := new_receiver_commitment; last_updated := block_num ctx;
       updates := next_updates receiver_data |};;
  total ← gets (fun s => total_supply (metadata s));
  stored_cmt ← gets (fun s => supply_commitment (metadata s));
  let supply_cmt := or_Z stored_cmt ZERO_COMMITMENT in
  set_supply (or_Q total 0 + amount) ((supply_cmt * amount_commitment) mod p);;
  tx_id ← next_tx;
  emit (MintCommitmentEvent to amount amount_commitment tx_id).

Definition burn (ctx : Ctx) (from_address : string) (amount : Q)
    (amount_commitment new_from_commitment nonce : Z) : M unit :=
  op ← gets (fun s => operator (metadata s));
  assert (String.eqb (caller ctx) from_address || String.eqb (caller ctx) op)
         Not_authorized_to_burn;;
  bump_nonce (caller ctx) nonce;;
  from_data ← gets (fun s => balance_commitments s !! from_address);
  match from_data with
  | None => assert false No_commitment_to_burn_from
  | Some from_rec =>
      let current_from_commitment := commitment from_rec in
      assert (verify_commitment_subtraction current_from_commitment
                new_from_commitment amount_commitment)
             From_commitment_mismatch;;
      set_balance from_address
        {| commitment := new_from_commitment; last_updated := block_num ctx;
           updates := updates from_rec + 1 |};;
      total ← gets (fun s => total_supply (metadata s));
      stored_cmt ← gets (fun s => supply_commitment (metadata s));
      let supply_cmt := or_Z stored_cmt ZERO_COMMITMENT in
      let inv := mod_inverse (amount_commitment mod p) p in
      set_supply (or_Q total 0 - amount) ((supply_cmt * inv) mod p);;
      tx_id ← next_tx;
      emit (BurnCommitmentEvent from_address amount amount_commitment tx_id)
  end.

(** The exported mutating operations, as calls a transaction can carry. *)
Inductive Call : Type :=
| Confidential_transfer (to : string)
    (amount_commitment new_sender_commitment new_receiver_commitment nonce : Z)
| Confidential_approve (spender : string) (allowance_commitment nonce : Z)
| Confidential_transfer_from (owner to : string)
    (amount_commitment new_owner_commitment new_receiver_commitment
     new_allowance_commitment nonce : Z)
| Mint (to : string) (amount : Q)
    (amount_commitment new_receiver_commitment nonce : Z)
| Burn (from_address : string) (amount : Q)
    (amount_commitment new_from_commitment nonce : Z).

Definition dispatch (ctx : Ctx) (c : Call) : M unit :=
  match c with
  | Confidential_transfer to ac ns nr n => confidential_transfer ctx to ac ns nr n
  | Confidential_approve sp ac n => confidential_approve ctx sp ac n
  | Confidential_transfer_from ow to ac no nr na n =>
      confidential_transfer_from ctx ow to ac no nr na n
  | Mint to amt ac nr n => mint ctx to amt ac nr n
  | Burn fr amt ac nf n => burn ctx fr amt ac nf n
  end.

Inductive Outcome : Type :=
| Accepted
| Rejected (e : Error).

(** The host runs a call as one transaction: the pending state is committed
    when the call returns and dropped when an [assert] fails. *)
Definition execute (op : M unit) (s : State) : Outcome * State :=
  match op s with
  | (inr _, s') => (Accepted, s')
  | (inl e, _) => (Rejected e, s)
  end.

Definition call (ctx : Ctx) (c : Call) (s : State) : Outcome * State :=
  execute (dispatch ctx c) s.

End Ledger.

(** ** [client_helper.py]: the off-chain transition planner *)

Module Client.
Import SHA3 Py.

Definition p : Z := 2 ^ 255 - 19.

Definition sha3_hex (s : string) : string := sha3 s.

Definition map_to_base (tag : string) : option Z :=
  n ← int16 (slice_to 32 (sha3_hex ("XCTOK:gen:" +:+ tag)));
  Some (n mod (p - 3) + 2).

Definition g : Z := Eval vm_compute in default 0 (map_to_base "g").
Definition h : Z := Eval vm_compute in default 0 (map_to_base "h").

Definition ZERO_COMMITMENT : Z := 1.

(** The helper's loop tests the low bit with [e & 1]. *)
Fixpoint mod_exp_loop (fuel : nat) (result base e modulus : Z) : option Z :=
  if e >? 0 then
    match fuel with
    | O => None
    | S fuel' =>
        let result :=
          if negb (Z.land e 1 =? 0) then (result * base) mod modulus else result in
        let e := Z.shiftr e 1 in
        let base := (base * base) mod modulus in
        mod_exp_loop fuel' result base e modulus
    end
  else Some result.

Definition mod_exp (base exponent modulus : Z) : Z :=
  if exponent =? 0 then 1
  else default 1 (mod_exp_loop (Token.mod_exp_fuel exponent) 1 (base mod modulus)
                               exponent modulus).

Definition mod_inverse (x modulus : Z) : Z :=
  mod_exp (x mod modulus) (modulus - 2) modulus.

Definition value_to_exponent (value : value) : option Z :=
  n ← int16 (slice_to 32 (sha3_hex ("VAL|" +:+ str value)));
  Some (n mod (p - 1)).

Definition create_commitment (value : value) (blinding : Z) : option Z :=
  vexp ← value_to_exponent value;
  Some ((mod_exp g vexp p * mod_exp h (blinding mod (p - 1)) p) mod p).

(** [None] and [0] both stand for "no commitment yet". *)
Definition absent (c : option Z) : bool :=
  match c with
  | None => true
  | Some n => n =? 0
  end.

Definition or_zero_commitment (c : option Z) : Z :=
  if absent c then ZERO_COMMITMENT else default ZERO_COMMITMENT c.

(** [amount_blinding], or the draw [random_blinding()] returns when it is
    [None]; the draw is an input of the embedding. *)
Definition blinding_or_random (amount_blinding : option Z) (draw : Z) : Z :=
  match amount_blinding with
  | None => draw
  | Some b => b
  end.

Inductive PlanError : Type :=
| Digest_not_hexadecimal
| Owner_must_have_an_existing_commitment
| Spender_must_have_an_existing_allowance_commitment
| Account_must_have_an_existing_commitment.

#[local] Instance plan_bind : MBind (sum PlanError) := fun A B f m =>
  match m with
  | inl e => inl e
  | inr a => f a
  end.

Definition commit (value : value) (blinding : Z) : PlanError + Z :=
  match create_commitment value blinding with
  | Some c => inr c
  | None => inl Digest_not_hexadecimal
  end.

Module TransferPlan.
Record t : Type := {
  amount_commitment : Z;
  new_sender_commitment : Z;
  new_receiver_commitment : Z;
  nonce : Z
}.
End TransferPlan.

Module TransferFromPlan.
Record t : Type := {
  amount_commitment : Z;
  new_owner_commitment : Z;
  new_receiver_commitment : Z;
  new_allowance_commitment : Z;
  nonce : Z
}.
End TransferFromPlan.

(** The ['amount'] entry of the plan is the number passed in, which the
    helper hands on as a [float]. *)
Module BurnPlan.
Record t : Type := {
  amount : value;
  amount_commitment : Z;
  new_from_commitment : Z;
  nonce : Z
}.
End BurnPlan.

Definition build_confidential_transfer
    (sender_commitment receiver_commitment : option Z) (amount : value)
    (amount_blinding : option Z) (next_nonce : Z) (draw : Z)
    : PlanError + TransferPlan.t :=
  let amount_blinding := blinding_or_random amount_blinding draw in
  amount_commitment ← commit amount amount_blinding;
  let sender_commitment := or_zero_commitment sender_commitment in
  let receiver_commitment := or_zero_commitment receiver_commitment in
  let inv_amt := mod_inverse amount_commitment p in
  let new_sender_commitment := (sender_commitment * inv_amt) mod p in
  let new_receiver_commitment := (receiver_commitment * amount_commitment) mod p in
  inr {| TransferPlan.amount_commitment := amount_commitment;
         TransferPlan.new_sender_commitment := new_sender_commitment;
         TransferPlan.new_receiver_commitment := new_receiver_commitment;
         TransferPlan.nonce := next_nonce |}.

Definition build_confidential_transfer_from
    (owner_commitment receiver_commitment allowance_commitment : option Z)
    (amount : value) (amount_blinding : option Z) (next_nonce : Z) (draw : Z)
    : PlanError + TransferFromPlan.t :=
  let amount_blinding := blinding_or_random amount_blinding draw in
  amount_commitment ← commit amount amount_blinding;
  if absent owner_commitment then inl Owner_must_have_an_existing_commitment
  else
    let owner_commitment := default 0 owner_commitment in
    let receiver_commitment := or_zero_commitment receiver_commitment in
    if absent allowance_commitment
    then inl Spender_must_have_an_existing_allowance_commitment
    else
      let allowance_commitment := default 0 allowance_commitment in
      let inv_amt := mod_inverse amount_commitment p in
      let new_owner_commitment := (owner_commitment * inv_amt) mod p in
      let new_receiver_commitment :=
        (receiver_commitment * amount_commitment) mod p in
      let new_allowance_commitment := (allowance_commitment * inv_amt) mod p in
      inr {| TransferFromPlan.amount_commitment := amount_commitment;
             TransferFromPlan.new_owner_commitment := new_owner_commitment;
             TransferFromPlan.new_receiver_commitment := new_receiver_commitment;
             TransferFromPlan.new_allowance_commitment := new_allowance_commitment;
             TransferFromPlan.nonce := next_nonce |}.

Definition build_burn
    (from_commitment : option Z) (amount : value)
    (amount_blinding : option Z) (next_nonce : Z) (draw : Z)
    : PlanError + BurnPlan.t :=
  let amount_blinding := blinding_or_random amount_blinding draw in
  if absent from_commitment then inl Account_must_have_an_existing_commitment
  else
    let from_commitment := default 0 from_commitment in
    amount_commitment ← commit amount amount_blinding;
    let inv_amt := mod_inverse amount_commitment p in
    let new_from_commitment := (from_commitment * inv_amt) mod p in
    inr {| BurnPlan.amount := amount;
           BurnPlan.amount_commitment := amount_commitment;
           BurnPlan.new_from_commitment := new_from_commitment;
           BurnPlan.nonce := next_nonce |}.

End Client.

(** ** The checks of an operation, read off the pre-state *)

Module Checks.
Import Py Token Ledger.

Definition call_nonce (c : Call) : Z :=
  match c with
  | Confidential_transfer _ _ _ _ n => n
  | Confidential_approve _ _ n => n
  | Confidential_transfer_from _ _ _ _ _ _ n => n
  | Mint _ _ _ _ n => n
  | Burn _ _ _ _ n => n
  end.

(** Capability checks: operator-only mint, self-or-operator burn. *)
Definition authorized (ctx : Ctx) (c : Call) (s : State) : bool :=
  match c with
  | Mint _ _ _ _ _ => String.eqb (caller ctx) (operator (metadata s))
  | Burn from_address _ _ _ _ =>
      String.eqb (caller ctx) from_address
      || String.eqb (caller ctx) (operator (metadata s))
  | _ => true
  end.

Definition not_self_target (ctx : Ctx) (c : Call) : bool :=
  match c with
  | Confidential_transfer to _ _ _ _ => negb (String.eqb to (caller ctx))
  | Confidential_transfer_from owner to _ _ _ _ _ => negb (String.eqb to owner)
  | _ => true
  end.

Definition nonce_ok (ctx : Ctx) (c : Call) (s : State) : bool :=
  call_nonce c =? get_nonce s (caller ctx) + 1.

(** Required prior records: the owner's balance and the spender's approval
    for transfer-from, the holder's balance for burn. *)
Definition exists_ok (ctx : Ctx) (c : Call) (s : State) : bool :=
  match c with
  | Confidential_transfer_from owner _ _ _ _ _ _ =>
      bool_decide (is_Some (balance_commitments s !! owner))
      && bool_decide (is_Some (approvals s !! (owner, caller ctx)))
  | Burn from_address _ _ _ _ =>
      bool_decide (is_Some (balance_commitments s !! from_address))
  | _ => true
  end.

Definition stored_commitment (s : State) (address : string) : Z :=
  commitment_or_zero (balance_commitments s !! address).

Definition stored_allowance (s : State) (owner spender : string) : Z :=
  match approvals s !! (owner, spender) with
  | Some a => approval_commitment a
  | None => ZERO_COMMITMENT
  end.

Definition algebra_ok (ctx : Ctx) (c : Call) (s : State) : bool :=
  match c with
  | Confidential_transfer to ac ns nr _ =>
      verify_commitment_subtraction (stored_commitment s (caller ctx)) ns ac
      && verify_commitment_addition (stored_commitment s to) ac nr
  | Confidential_approve _ _ _ => true
  | Confidential_transfer_from owner to ac no nr na _ =>
      verify_commitment_subtraction (stored_commitment s owner) no ac
      && verify_commitment_addition (stored_commitment s to) ac nr
      && verify_commitment_subtraction
           (stored_allowance s owner (caller ctx)) na ac
  | Mint to _ ac nr _ =>
      verify_commitment_addition (stored_commitment s to) ac nr
  | Burn from_address _ ac nf _ =>
      verify_commitment_subtraction (stored_commitment s from_address) nf ac
  end.

Definition checks_pass (ctx : Ctx) (c : Call) (s : State) : bool :=
  authorized ctx c s && not_self_target ctx c && nonce_ok ctx c s
  && exists_ok ctx c s && algebra_ok ctx c s.

(** The guard an operation asserts before it looks at the nonce. *)
Definition pre_nonce_guard (ctx : Ctx) (c : Call) (s : State) : bool :=
  authorized ctx c s && not_self_target ctx c.





(** A history of accepted calls; [None] as soon as one is rejected. *)
Fixpoint run_calls (s : State) (txs : list (Ctx * Call)) : option State :=
  match txs with
  | [] => Some s
  | (ctx, c) :: rest =>
      match call ctx c s with
      | (Accepted, s') => run_calls s' rest
      | (Rejected _, _) => None
      end
  end.


End Checks.

(** ** Concrete histories used as examples *)

Module Scenario.
Import Py Token Ledger Checks.
#[local] Open Scope string_scope.

Definition at_height (who : string) (height : Z) : Ctx :=
  {| caller := who; block_num := height |}.

Definition genesis : State := seed (at_height "operator" 0).





End Scenario.

(** ** The supply check of the ledger *)

Module Views.
Import Py Token Ledger.

Module SupplyReport.
Record t : Type := {
  ok : bool;
  product : Z;
  expected : Z;
  accounts : Z
}.
End SupplyReport.

(** One turn of the loop over [balance_commitments.all()]; every stored
    value is a non-empty dict, so the [if] of the loop always holds. *)
Definition supply_step (_ : string) (v : BalanceRecord) (acc : Z * Z) : Z * Z :=
  ((fst acc * Ledger.commitment v) mod p, snd acc + 1).

(** The loop multiplies modulo [p] and counts, so the order in which the
    records are visited does not show in its result. *)
Definition supply_loop (records : gmap string BalanceRecord) : Z * Z :=
  map_fold supply_step (1, 0) records.

Definition verify_supply_invariant (s : State) : SupplyReport.t :=
  let '(prod, count) := supply_loop (balance_commitments s) in
  let expected := supply_commitment (metadata s) in
  {| SupplyReport.ok := prod =? expected;
     SupplyReport.product := prod;
     SupplyReport.expected := expected;
     SupplyReport.accounts := count |}.

End Views.

(** ** The wallet-side tracker of [client_helper.py] *)

Module CommitmentAccount.
Import Py.

Record t : Type := { commitment : Z }.

(** [__init__]: the argument is [None] when it is omitted or passed as
    [None]; an omitted argument defaults to [ZERO_COMMITMENT]. *)
Definition init (commitment : option Z) : t :=
  {| commitment :=
       match commitment with
       | None => Client.ZERO_COMMITMENT
       | Some c => or_Z c Client.ZERO_COMMITMENT
       end |}.

(** The two methods update [self.commitment] and return its new value. *)
Definition apply_incoming (self : t) (amount_commitment : Z) : t :=
  {| commitment := (commitment self * amount_commitment) mod Client.p |}.

Definition apply_outgoing (self : t) (amount_commitment : Z) : t :=
  {| commitment :=
       (commitment self * Client.mod_inverse amount_commitment Client.p)
       mod Client.p |}.

End CommitmentAccount.

(** ** Histories *)

Module Histories.
Import Py Token Ledger Checks Views.



(** A mint of the commitment 0, then a mint of 5 to someone else. *)
Definition zero_mint_then_mint : list (Ctx * Call) :=
  [ (Scenario.at_height "operator" 1, Mint "alice" 1 0 0 1);
    (Scenario.at_height "operator" 2, Mint "bob" 1 5 5 2) ].


End Histories.

(** * Part II: facts *)

Module PrimalityFacts.
Import Primality.

Section Lucas.
#[local] Unset Default Proof Using.
Variables N a : Z.
Hypothesis N_gt_1 : 1 < N.
Hypothesis a_pow : a ^ (N - 1) mod N = 1.

Lemma pow_mod_one_mul x k :
  0 <= x -> 0 <= k -> a ^ x mod N = 1 -> a ^ (x * k) mod N = 1.
Proof.
  intros Hx Hk H.
  rewrite Z.pow_mul_r by lia.
  rewrite <- Z.mod_pow_l, H, Z.pow_1_l by lia.
  apply Z.mod_1_l; lia.
Qed.

Lemma pow_mod_one_gcd x :
  0 <= x -> forall y, 0 <= y ->
  a ^ x mod N = 1 -> a ^ y mod N = 1 -> a ^ Z.gcd x y mod N = 1.
Proof.
  intros Hx. pattern x. apply Z_lt_induction; [|exact Hx].
  clear x Hx. intros x IH y Hy Hax Hay.
  destruct (Z.eq_dec x 0) as [->|Hnz].
  - rewrite Z.gcd_0_l, Z.abs_eq by lia. exact Hay.
  - destruct (Z.lt_total x 0) as [Hneg|[->|Hpos]]; [|lia|].
    { rewrite Z.pow_neg_r in Hax by lia. rewrite Z.mod_0_l in Hax; lia. }
    rewrite <- Z.gcd_mod by lia.
    pose proof (Z.mod_pos_bound y x Hpos) as Hb.
    apply IH; [lia|lia| |exact Hax].
    pose proof (Z.div_pos y x Hy Hpos) as Hq.
    pose proof (pow_mod_one_mul x (y / x) ltac:(lia) Hq Hax) as H1.
    rewrite (Z.div_mod y x) in Hay at 1 by lia.
    rewrite Z.pow_add_r in Hay by nia.
    rewrite <- Z.mul_mod_idemp_l, H1, Z.mul_1_l in Hay by lia.
    exact Hay.
Qed.

Hypothesis a_order :
  forall q, Z.prime q -> (q | N - 1) -> a ^ ((N - 1) / q) mod N <> 1.

Lemma exists_prime_divisor m : 1 < m -> exists q, Z.prime q /\ (q | m).
Proof.
  intros Hm. assert (H0 : 0 <= m) by lia. revert Hm.
  pattern m. apply Z_lt_induction; [|exact H0].
  clear m H0. intros m IH Hm.
  destruct (prime_dec m) as [Hp|Hnp].
  - exists m. split; [apply prime_alt, Hp|apply Z.divide_refl].
  - destruct (not_prime_divide m Hm Hnp) as (d & Hd & Hdiv).
    destruct (IH d ltac:(lia) ltac:(lia)) as (q & Hq & Hqd).
    exists q. split; [exact Hq|]. eapply Z.divide_trans; eassumption.
Qed.

Lemma order_full k : 0 < k < N - 1 -> a ^ k mod N <> 1.
Proof.
  intros Hk Hak.
  pose proof (pow_mod_one_gcd k ltac:(lia) (N - 1) ltac:(lia) Hak a_pow) as Hg.
  pose proof (Z.gcd_divide_l k (N - 1)) as Hgk.
  pose proof (Z.gcd_divide_r k (N - 1)) as [m Hm].
  pose proof (Z.gcd_nonneg k (N - 1)) as Hg0.
  set (g := Z.gcd k (N - 1)) in *.
  assert (Hgpos : 0 < g).
  { destruct (Z.eq_dec g 0) as [E|]; [|lia]. rewrite E in Hm. lia. }
  assert (Hgk' : g <= k) by (apply Z.divide_pos_le; [lia|exact Hgk]).
  assert (Hm1 : 1 < m) by nia.
  destruct (exists_prime_divisor m Hm1) as (q & Hq & [m' Hm']).
  pose proof (Z.prime_ge_2 q Hq) as Hq2.
  apply (a_order q Hq).
  - exists (m' * g). rewrite Hm, Hm'. ring.
  - replace ((N - 1) / q) with (g * m').
    + apply pow_mod_one_mul; [lia|nia|exact Hg].
    + rewrite Hm, Hm'. replace (m' * q * g) with (g * m' * q) by ring.
      rewrite Z.div_mul; lia.
Qed.

Lemma a_coprime : Z.coprime a N.
Proof.
  apply Z.coprime_Bezout.
  pose proof (Z.div_mod (a ^ (N - 1)) N ltac:(lia)) as H.
  rewrite a_pow in H.
  exists (a ^ (N - 2)), (- (a ^ (N - 1) / N)).
  replace (a ^ (N - 2) * a) with (a ^ (N - 1)).
  - lia.
  - replace (N - 1) with (Z.succ (N - 2)) by lia.
    rewrite Z.pow_succ_r by lia. ring.
Qed.

Lemma pow_coprime i : 0 <= i -> Z.coprime (a ^ i mod N) N.
Proof.
  intros Hi. apply Z.coprime_mod_l_iff.
  apply Z.coprime_pow_l; [exact Hi|apply a_coprime].
Qed.

Lemma powers_distinct i j : 0 <= i < j -> j < N - 1 -> a ^ i mod N <> a ^ j mod N.
Proof.
  intros Hij Hj Heq.
  apply (order_full (j - i)); [lia|].
  assert (Hdiv : (N | a ^ i * (a ^ (j - i) - 1))).
  { replace (a ^ i * (a ^ (j - i) - 1)) with (a ^ j - a ^ i).
    - apply Z.mod_divide; [lia|].
      rewrite Zminus_mod, Heq, Z.sub_diag. apply Z.mod_0_l; lia.
    - replace j with (i + (j - i)) at 1 by lia.
      rewrite Z.pow_add_r by lia. ring. }
  apply Z.gauss in Hdiv.
  - destruct Hdiv as [c Hc].
    replace (a ^ (j - i)) with (1 + c * N) by lia.
    rewrite Z.mod_add by lia. apply Z.mod_1_l; lia.
  - apply Z.coprime_pow_r; [lia|]. apply Z.Symmetric_coprime, a_coprime.
Qed.

(** The [N - 1] powers of [a] are pairwise distinct units, so no residue
    in [1, N) can fail to be a unit: [N] is prime. *)
Theorem lucas : Z.prime N.
Proof.
  split; [exact N_gt_1|]. intros d Hd Hdiv.
  set (pw := fun i : nat => a ^ Z.of_nat i mod N).
  set (l := map pw (seq 0 (Z.to_nat (N - 1)))).
  set (u := map Z.of_nat (seq 1 (Z.to_nat (N - 1)))).
  assert (Hunit : forall x, In x l -> Z.coprime x N /\ 0 < x < N).
  { intros x Hx. apply List.in_map_iff in Hx. destruct Hx as (i & <- & _).
    pose proof (pow_coprime (Z.of_nat i) ltac:(lia)) as Hr.
    split; [exact Hr|]. unfold pw in *.
    pose proof (Z.mod_pos_bound (a ^ Z.of_nat i) N ltac:(lia)) as Hb.
    assert (a ^ Z.of_nat i mod N <> 0); [|lia].
    intros E. rewrite E in Hr.
    apply (proj1 (Z.coprime_0_l_iff N)) in Hr. lia. }
  assert (Hnd : List.NoDup (d :: l)).
  { constructor.
    - intros Hin. destruct (Hunit d Hin) as [Hr _].
      unfold Z.coprime in Hr.
      pose proof (Z.gcd_greatest d N d (Z.divide_refl d) Hdiv) as Hg.
      rewrite Hr in Hg. apply Z.divide_1_r in Hg. lia.
    - apply List.NoDup_map_NoDup_ForallPairs; [|apply List.seq_NoDup].
      intros i j Hi Hj Hpw. apply List.in_seq in Hi, Hj.
      destruct (Nat.lt_total i j) as [Hlt|[->|Hlt]]; [|reflexivity|]; exfalso.
      + apply (powers_distinct (Z.of_nat i) (Z.of_nat j)); [lia|lia|exact Hpw].
      + apply (powers_distinct (Z.of_nat j) (Z.of_nat i)); [lia|lia|].
        symmetry. exact Hpw. }
  assert (Hincl : List.incl (d :: l) u).
  { intros x [<-|Hx].
    - apply List.in_map_iff. exists (Z.to_nat d). split; [lia|]. apply List.in_seq. lia.
    - destruct (Hunit x Hx) as [_ Hb].
      apply List.in_map_iff. exists (Z.to_nat x). split; [lia|]. apply List.in_seq. lia. }
  pose proof (List.NoDup_incl_length Hnd Hincl) as Hlen.
  unfold l, u in Hlen. cbn [length] in Hlen.
  rewrite !List.length_map, !List.length_seq in Hlen. lia.
Qed.
End Lucas.

Lemma prime_divides_factors (fs : list (Z * Z)) (q : Z) :
  Forall (fun qk => 0 < snd qk /\ Z.prime (fst qk)) fs ->
  Z.prime q -> (q | factors_product fs) -> Exists (fun qk => fst qk = q) fs.
Proof.
  intros Hfs Hq. induction Hfs as [|[q0 k] fs [Hk Hq0] _ IH]; cbn.
  - intros H. apply Z.divide_1_r in H. pose proof (Z.prime_ge_2 q Hq). lia.
  - intros H. apply Z.divide_prime_mul in H; [|exact Hq].
    destruct H as [H|H].
    + left. cbn in *. symmetry.
      apply (Z.divide_prime_pp q q0 k Hq Hq0); [lia|exact H].
    + right. apply IH, H.
Qed.

Lemma check_entry_sound (known : list Z) (e : entry) :
  Forall Z.prime known -> check_entry known e = true -> Z.prime (fst (fst e)).
Proof.
  destruct e as [[N a] fs]. cbn [fst]. unfold check_entry.
  intros Hknown H.
  apply andb_prop in H. destruct H as [H Hord].
  apply andb_prop in H. destruct H as [H Hpow].
  apply andb_prop in H. destruct H as [H Hkn].
  apply andb_prop in H. destruct H as [HN Hprod].
  apply Z.ltb_lt in HN. apply Z.eqb_eq in Hprod, Hpow.
  rewrite List.forallb_forall in Hkn, Hord.
  rewrite Zpow_mod_correct in Hpow by lia.
  assert (Hfs : Forall (fun qk => 0 < snd qk /\ Z.prime (fst qk)) fs).
  { apply List.Forall_forall. intros qk Hin. specialize (Hkn qk Hin).
    apply andb_prop in Hkn. destruct Hkn as [Hk Hex].
    apply Z.ltb_lt in Hk. split; [exact Hk|].
    apply List.existsb_exists in Hex. destruct Hex as (x & Hx & Heq).
    apply Z.eqb_eq in Heq. subst x.
    rewrite List.Forall_forall in Hknown. apply Hknown, Hx. }
  apply (lucas N a HN Hpow). intros q Hq Hdiv.
  rewrite <- Hprod in Hdiv.
  pose proof (prime_divides_factors fs q Hfs Hq Hdiv) as Hex.
  apply List.Exists_exists in Hex. destruct Hex as (qk & Hin & <-).
  specialize (Hord qk Hin). rewrite Zpow_mod_correct in Hord by lia.
  apply negb_true_iff, Z.eqb_neq in Hord. exact Hord.
Qed.

Lemma check_chain_sound (es : list entry) :
  forall known, Forall Z.prime known -> check_chain known es = true ->
  Forall (fun e => Z.prime (fst (fst e))) es.
Proof.
  induction es as [|e es IH]; intros known Hknown H; [constructor|].
  cbn in H. apply andb_prop in H. destruct H as [He Hes].
  pose proof (check_entry_sound known e Hknown He) as Hp.
  constructor; [exact Hp|].
  apply (IH (fst (fst e) :: known)); [constructor; assumption|exact Hes].
Qed.

Lemma chain_prime (es : list entry) (n : Z) :
  check_chain [2] es = true ->
  existsb (fun e => fst (fst e) =? n) es = true -> Z.prime n.
Proof.
  intros Hchain Hin.
  apply List.existsb_exists in Hin. destruct Hin as (e & He & Heq).
  apply Z.eqb_eq in Heq. subst n.
  assert (Hknown : Forall Z.prime [2])
    by (constructor; [exact Z.prime_2|constructor]).
  pose proof (check_chain_sound es [2] Hknown Hchain) as H.
  rewrite List.Forall_forall in H. apply H, He.
Qed.

Lemma p25519_chain_ok : check_chain [2] p25519_chain = true.
Proof. vm_compute. reflexivity. Qed.

Theorem prime_25519 : Z.prime (2 ^ 255 - 19).
Proof.
  apply (chain_prime p25519_chain); [exact p25519_chain_ok|].
  vm_compute. reflexivity.
Qed.

End PrimalityFacts.

(** ** Field arithmetic *)

Module FieldFacts.
Import Token.

Lemma p_prime : Z.prime p.
Proof. exact PrimalityFacts.prime_25519. Qed.

Lemma p_value : p = 57896044618658097711785492504343953926634992332820282019728792003956564819949.
Proof. reflexivity. Qed.

Lemma p_gt_1 : 1 < p.
Proof. rewrite p_value. lia. Qed.

(** The loop exits before [fuel] iterations are used up, with the invariant
    [result * base ^ exponent] preserved modulo [modulus]. *)
Lemma mod_exp_loop_spec (modulus : Z) (Hm : 0 < modulus) (fuel : nat) :
  forall result base exponent,
    0 < exponent < 2 ^ Z.of_nat fuel ->
    mod_exp_loop fuel result base exponent modulus
    = Some ((result * base ^ exponent) mod modulus).
Proof.
  induction fuel as [|fuel IH]; intros result base exponent He.
  - change (2 ^ Z.of_nat 0) with 1 in He. lia.
  - cbn [mod_exp_loop].
    destruct (Z.gtb_spec exponent 0) as [_|]; [|lia].
    rewrite Z.shiftr_div_pow2 by lia. change (2 ^ 1) with 2.
    pose proof (Z.div_mod exponent 2 ltac:(lia)) as Hdm.
    pose proof (Z.mod_pos_bound exponent 2 ltac:(lia)) as Hbit.
    assert (Hhalf : exponent / 2 < 2 ^ Z.of_nat fuel).
    { rewrite Nat2Z.inj_succ, Z.pow_succ_r in He by lia.
      apply Z.div_lt_upper_bound; lia. }
    assert (Hsq : forall k, 0 <= k ->
              (base * base mod modulus) ^ k mod modulus
              = base ^ (2 * k) mod modulus).
    { intros k Hk. rewrite Z.mod_pow_l.
      rewrite Z.pow_mul_r by lia. f_equal. f_equal. lia. }
    destruct (Z.eqb_spec (exponent mod 2) 1) as [Hodd|Heven].
    + destruct (Z.eq_dec (exponent / 2) 0) as [Hz|Hnz].
      * rewrite Hz. destruct fuel; cbn; f_equal; f_equal;
          replace exponent with 1 by lia; lia.
      * rewrite IH by lia.
        f_equal.
        rewrite <- Z.mul_mod_idemp_r, Hsq, Z.mul_mod_idemp_r by lia.
        rewrite Z.mul_mod_idemp_l by lia.
        f_equal.
        replace (base ^ exponent) with (base ^ (2 * (exponent / 2)) * base);
          [ring|].
        rewrite <- (Z.pow_1_r base) at 2. rewrite <- Z.pow_add_r by lia.
        f_equal. lia.
    + assert (Hnz : 0 < exponent / 2) by lia.
      rewrite IH by lia. f_equal.
      rewrite <- Z.mul_mod_idemp_r, Hsq, Z.mul_mod_idemp_r by lia.
      f_equal. f_equal. f_equal. lia.
Qed.

Lemma mod_exp_fuel_enough (exponent : Z) :
  0 < exponent -> exponent < 2 ^ Z.of_nat (mod_exp_fuel exponent).
Proof.
  intros He. unfold mod_exp_fuel.
  rewrite Nat2Z.inj_succ, Z2Nat.id by apply Z.log2_nonneg.
  apply Z.log2_spec, He.
Qed.

(** [mod_exp] returns, and returns the modular power. *)
Lemma mod_exp_spec (base exponent modulus : Z) :
  1 < modulus -> 0 <= exponent ->
  mod_exp base exponent modulus = base ^ exponent mod modulus.
Proof.
  intros Hm He. unfold mod_exp.
  destruct (Z.eqb_spec exponent 0) as [->|Hnz].
  - rewrite Z.pow_0_r, Z.mod_1_l; lia.
  - rewrite mod_exp_loop_spec; [|lia|split; [lia|apply mod_exp_fuel_enough; lia]].
    cbn [default from_option id]. rewrite Z.mul_1_l. apply Z.mod_pow_l.
Qed.

(** The helper's copy of the loop computes the same thing. *)
Lemma client_mod_exp_loop_eq (fuel : nat) :
  forall result base e modulus,
    Client.mod_exp_loop fuel result base e modulus
    = mod_exp_loop fuel result base e modulus.
Proof.
  induction fuel as [|fuel IH]; intros result base e modulus; [reflexivity|].
  cbn [Client.mod_exp_loop mod_exp_loop].
  destruct (e >? 0); [|reflexivity].
  rewrite IH. f_equal.
  pose proof (Z.land_ones e 1 ltac:(lia)) as Hland.
  change (Z.ones 1) with 1 in Hland. change (2 ^ 1) with 2 in Hland.
  rewrite Hland.
  pose proof (Z.mod_pos_bound e 2 ltac:(lia)).
  destruct (Z.eqb_spec (e mod 2) 0), (Z.eqb_spec (e mod 2) 1); cbn; lia || reflexivity.
Qed.

Lemma client_mod_exp_eq (base exponent modulus : Z) :
  Client.mod_exp base exponent modulus = mod_exp base exponent modulus.
Proof.
  unfold Client.mod_exp, mod_exp. now rewrite client_mod_exp_loop_eq.
Qed.

Lemma fermat_inverse (x : Z) :
  x mod p <> 0 -> (x ^ (p - 2) mod p * x) mod p = 1.
Proof.
  intros Hx. pose proof p_gt_1 as Hp.
  rewrite Z.mul_mod_idemp_l by lia.
  replace (x ^ (p - 2) * x) with (x ^ (p - 1)).
  - apply Z.fermat_nz; [exact p_prime|exact Hx].
  - replace (p - 1) with (Z.succ (p - 2)) by lia.
    rewrite Z.pow_succ_r by lia. ring.
Qed.

End FieldFacts.

(** ** Digests always parse *)

Module DigestFacts.
Import SHA3 Py.

(** The hash agrees with the FIPS 202 test vectors. *)
Example sha3_of_empty :
  sha3 EmptyString
  = "a7ffc6f8bf1ed76651c14756a061d662f580ff4de43b49fa82d80a4b80f8434a"%string.
Proof. vm_compute. reflexivity. Qed.

Example sha3_of_abc :
  sha3 "abc"
  = "3a985da74fe225b2045c172d6bd390bd855f086e3e9d525b46bfe24511431532"%string.
Proof. vm_compute. reflexivity. Qed.

Lemma hex_digit_hex_char (d : Z) : 0 <= d < 16 -> hex_digit (hex_char d) = Some d.
Proof.
  intros Hd.
  assert (H : In d (map Z.of_nat (seq 0 16))).
  { apply in_map_iff. exists (Z.to_nat d). split; [lia|]. apply in_seq. lia. }
  cbn in H. repeat (destruct H as [<-|H]; [reflexivity|]). destruct H.
Qed.

Lemma int16_from_hexlify (bs : list Z) :
  Forall (fun b => 0 <= b < 256) bs ->
  forall acc, exists n, int16_from acc (hexlify bs) = Some n.
Proof.
  induction 1 as [|b bs Hb _ IH]; intros acc; [now exists acc|].
  cbn [hexlify int16_from].
  rewrite hex_digit_hex_char
    by (split; [apply Z.div_pos; lia|apply Z.div_lt_upper_bound; lia]).
  rewrite hex_digit_hex_char by (apply Z.mod_pos_bound; lia).
  apply IH.
Qed.

Lemma slice_hexlify (k : nat) :
  forall bs, slice_to (2 * k) (hexlify bs) = hexlify (firstn k bs).
Proof.
  unfold slice_to.
  induction k as [|k IH]; intros bs.
  - destruct bs; reflexivity.
  - replace (2 * S k)%nat with (S (S (2 * k))) by lia.
    destruct bs as [|b bs]; [reflexivity|].
    cbn [hexlify substring firstn]. now rewrite IH.
Qed.

Lemma sha3_256_bytes (msg : list Z) :
  Forall (fun b => 0 <= b < 256) (sha3_256 msg) /\ length (sha3_256 msg) = 32%nat.
Proof.
  unfold sha3_256. destruct (fold_left absorb_byte msg _) as [st pos].
  split; [|now rewrite length_map, length_seq].
  apply List.Forall_forall. intros b Hb. apply in_map_iff in Hb.
  destruct Hb as (k & <- & _). unfold byte_at.
  change 255 with (Z.ones 8). rewrite Z.land_ones by lia.
  apply Z.mod_pos_bound. lia.
Qed.

(** [int(sha3(s)[:32], 16)] never raises. *)
Lemma digest_int_total (s : string) :
  exists n, int16 (slice_to 32 (sha3 s)) = Some n.
Proof.
  unfold sha3. destruct (sha3_256_bytes (encode s)) as [Hbytes Hlen].
  change 32%nat with (2 * 16)%nat. rewrite slice_hexlify.
  destruct (sha3_256 (encode s)) as [|b bs]; [discriminate|].
  apply (int16_from_hexlify (firstn 16 (b :: bs))).
  now apply Forall_take.
Qed.

End DigestFacts.

(** ** Commitments and the planner *)

Module CommitFacts.
Import Py Token FieldFacts DigestFacts.

Lemma generators_assert : generators_ok = true.
Proof. vm_compute. reflexivity. Qed.

Lemma g_range : 1 <= g < p.
Proof. split; [apply Z.leb_le|apply Z.ltb_lt]; vm_compute; reflexivity. Qed.

Lemma h_range : 1 <= h < p.
Proof. split; [apply Z.leb_le|apply Z.ltb_lt]; vm_compute; reflexivity. Qed.

Lemma unit_pow_coprime (a e : Z) : 1 <= a < p -> 0 <= e -> Z.coprime p (a ^ e).
Proof.
  intros Ha He. apply Z.coprime_pow_r; [exact He|].
  apply Z.coprime_prime_small; [exact p_prime|exact Ha].
Qed.

Lemma coprime_mod_nonzero (x : Z) : Z.coprime p x -> x mod p <> 0.
Proof.
  intros Hc Hz. apply Z.coprime_mod_r_iff in Hc. rewrite Hz in Hc.
  apply (proj1 (Z.coprime_0_r_iff p)) in Hc. pose proof p_gt_1. lia.
Qed.

Lemma commitment_formula_range (vexp b : Z) :
  0 <= vexp -> 0 <= b ->
  1 <= (mod_exp g vexp p * mod_exp h b p) mod p <= p - 1.
Proof.
  intros Hv Hb. pose proof p_gt_1 as Hp.
  rewrite !mod_exp_spec by lia.
  rewrite <- Z.mul_mod by lia.
  pose proof (Z.mod_pos_bound (g ^ vexp * h ^ b) p ltac:(lia)).
  assert ((g ^ vexp * h ^ b) mod p <> 0); [|lia].
  apply coprime_mod_nonzero, Z.coprime_mul_r.
  - apply unit_pow_coprime; [apply g_range|exact Hv].
  - apply unit_pow_coprime; [apply h_range|exact Hb].
Qed.

Lemma create_commitment_range (value : value) (blinding : Z) :
  exists c, create_commitment value blinding = Some c /\ 1 <= c <= p - 1.
Proof.
  unfold create_commitment.
  destruct (digest_int_total ("VAL|" +:+ str value)) as [n ->].
  cbn [mbind option_bind]. eexists. split; [reflexivity|].
  pose proof p_gt_1.
  apply commitment_formula_range; apply Z.mod_pos_bound; lia.
Qed.

(** The planner's [create_commitment] mirrors the ledger's. *)
Lemma client_create_commitment_eq (value : value) (blinding : Z) :
  Client.create_commitment value blinding = create_commitment value blinding.
Proof.
  unfold Client.create_commitment, Client.value_to_exponent, create_commitment.
  unfold Client.sha3_hex.
  destruct (int16 _) as [n|]; [|reflexivity].
  cbn [mbind option_bind]. now rewrite !client_mod_exp_eq.
Qed.

Lemma client_commit_range (value : value) (blinding : Z) :
  exists c, Client.commit value blinding = inr c /\ 1 <= c <= p - 1.
Proof.
  unfold Client.commit. rewrite client_create_commitment_eq.
  destruct (create_commitment_range value blinding) as (c & -> & Hc).
  now exists c.
Qed.

Lemma mod_inverse_spec (x : Z) : x mod p <> 0 -> (mod_inverse x p * x) mod p = 1.
Proof.
  intros Hx. pose proof p_gt_1. unfold mod_inverse.
  rewrite mod_exp_spec by lia. now apply fermat_inverse.
Qed.

Lemma client_mod_inverse_eq (x : Z) : Client.mod_inverse x p = mod_inverse x p.
Proof.
  pose proof p_gt_1. unfold Client.mod_inverse, mod_inverse.
  rewrite client_mod_exp_eq, !mod_exp_spec by lia. apply Z.mod_pow_l.
Qed.

Lemma field_element_nonzero (c : Z) : 1 <= c <= p - 1 -> c mod p <> 0.
Proof. intros Hc. rewrite Z.mod_small; lia. Qed.

(** Dividing by a commitment and multiplying back. *)
Lemma unwind_division (c a : Z) :
  0 <= c < p -> a mod p <> 0 ->
  ((c * mod_inverse a p) mod p * a) mod p = c.
Proof.
  intros Hc Ha. pose proof p_gt_1.
  rewrite Z.mul_mod_idemp_l, <- Z.mul_assoc by lia.
  rewrite <- Z.mul_mod_idemp_r, mod_inverse_spec by (lia || assumption).
  rewrite Z.mul_1_r. apply Z.mod_small, Hc.
Qed.

Lemma unwind_multiplication (c a : Z) :
  0 <= c < p -> a mod p <> 0 ->
  ((c * a) mod p * mod_inverse a p) mod p = c.
Proof.
  intros Hc Ha. pose proof p_gt_1.
  rewrite Z.mul_mod_idemp_l, <- Z.mul_assoc by lia.
  rewrite (Z.mul_comm a), <- Z.mul_mod_idemp_r, mod_inverse_spec by (lia || assumption).
  rewrite Z.mul_1_r. apply Z.mod_small, Hc.
Qed.

End CommitFacts.

(** ** The ledger *)

Module LedgerFacts.
Import Py Token Ledger Checks.

(** Unfold one call down to the guards it evaluates. *)
Ltac run_call :=
  unfold call, execute, dispatch, confidential_transfer, confidential_approve,
    confidential_transfer_from, mint, burn, bump_nonce, next_tx, set_balance,
    set_approval, set_nonce, set_supply, set_next_tx_id, emit, assert, gets,
    modify;
  unfold mbind, M_bind, mret, M_ret; cbn; unfold from_option, id.

Ltac split_guard :=
  match goal with
  | |- context [if ?b then _ else _] => destruct b eqn:?; cbn in *
  | |- context [match ?o with Some _ => _ | None => _ end] =>
      destruct o eqn:?; cbn in *
  end.

Ltac unfold_checks :=
  unfold checks_pass, pre_nonce_guard, authorized, not_self_target, nonce_ok,
    exists_ok, algebra_ok, stored_commitment, stored_allowance, get_nonce,
    call_nonce, from_option, id in *.


Lemma call_accepts (ctx : Ctx) (c : Call) (s : State) :
  checks_pass ctx c s = true -> exists s', call ctx c s = (Accepted, s').
Proof.
  intros H. destruct c; unfold_checks; cbn in H; run_call.
  all: repeat split_guard; try discriminate; eauto.
Qed.

End LedgerFacts.

Module LedgerClaims.
Import Py Token Ledger Checks Scenario FieldFacts LedgerFacts.









End LedgerClaims.

Module LedgerClaims2.
Import Py Token Ledger Checks Scenario FieldFacts LedgerFacts.






End LedgerClaims2.

Module AlgebraClaims.
Import Py Token Ledger Checks Scenario FieldFacts CommitFacts LedgerFacts.




(** C6: for every field element [c] in [0, p) and every amount commitment
    [a], [verify_commitment_addition c a ((c * a) mod p)] and
    [verify_commitment_subtraction ((c * a) mod p) c a] both return true. *)
Theorem C6_verification_round_trip (c a : Z) :
  0 <= c < p ->
  verify_commitment_addition c a ((c * a) mod p) = true
  /\ verify_commitment_subtraction ((c * a) mod p) c a = true.
Proof.
  intros _. unfold verify_commitment_addition, verify_commitment_subtraction.
  now rewrite !Z.eqb_refl.
Qed.

Lemma C6_witness :
  verify_commitment_addition 2 3 ((2 * 3) mod p) = true
  /\ verify_commitment_subtraction ((2 * 3) mod p) 2 3 = true.
Proof.
  apply (C6_verification_round_trip 2 3). split; [lia|reflexivity].
Defined.

(** C7: for every integer [x] with [x mod p <> 0], where [p = 2^255 - 19],
    [(mod_inverse x p * x) mod p = 1]. *)
Theorem C7_mod_inverse_inverts (x : Z) :
  x mod p <> 0 -> (mod_inverse x p * x) mod p = 1.
Proof. exact (mod_inverse_spec x). Qed.

Lemma C7_witness : (mod_inverse 5 p * 5) mod p = 1.
Proof. apply (C7_mod_inverse_inverts 5). vm_compute. discriminate. Defined.

(** C8, as stated, fails for an amount commitment outside the field: with
    [p + 1] the mint is accepted and both the record and the supply
    commitment hold [1]. *)
Lemma C8_counterexample :
  exists s,
    call (at_height "operator" 1)
         (Mint "alice" (21 # 2) (p + 1) ((1 * (p + 1)) mod p) 1) genesis
    = (Accepted, s)
    /\ (commitment <$> balance_commitments s !! "alice"%string) = Some 1
    /\ supply_commitment (metadata s) = 1
    /\ 1 <> p + 1.
Proof.
  eexists. split; [vm_compute; reflexivity|].
  split; [vm_compute; reflexivity|]. split; [vm_compute; reflexivity|].
  discriminate.
Qed.

(** C8, amended: from the freshly seeded state, a mint of 10.5 to alice by
    the operator with nonce 1 at height 1, with any amount commitment [ac]
    and new receiver commitment [(1 * ac) mod p], is accepted; alice's
    record then holds [ac mod p] with [updates = 1], the public supply is
    10.5 and the supply commitment is [ac mod p] (which is [ac] itself
    when [ac] is a field element). *)
Theorem C8_first_mint (deployer : Ctx) (ac : Z) :
  exists s,
    call {| caller := caller deployer; block_num := 1 |}
         (Mint "alice" (21 # 2) ac ((1 * ac) mod p) 1) (seed deployer)
    = (Accepted, s)
    /\ balance_commitments s !! "alice"%string
       = Some {| commitment := ac mod p; last_updated := 1; updates := 1 |}
    /\ total_supply (metadata s) = 21 # 2
    /\ supply_commitment (metadata s) = ac mod p
    /\ (0 <= ac < p -> ac mod p = ac).
Proof.
  run_call. rewrite String.eqb_refl. cbn.
  rewrite lookup_empty. change (0 + 1) with 1. cbn.
  unfold verify_commitment_addition, commitment_or_zero, ZERO_COMMITMENT.
  rewrite lookup_empty, Z.eqb_refl. cbn.
  eexists. split; [reflexivity|]. cbn.
  rewrite lookup_insert_eq, Z.mul_1_l.
  repeat split; try reflexivity. apply Z.mod_small.
Qed.

(** C9: [create_commitment], the ledger's and the planner's, always returns
    a field element in [1, p - 1], never one congruent to 0; so in
    [build_confidential_transfer], [build_confidential_transfer_from] and
    [build_burn] the amount commitment handed to [mod_inverse] is a nonzero
    field element, and [mod_inverse] does return its inverse there. *)
Theorem C9_planner_inverts_units
    (amount : value) (blinding : Z) (amount_blinding : option Z)
    (c1 c2 c3 : option Z) (next_nonce draw : Z) :
  (exists c, create_commitment amount blinding = Some c
     /\ 1 <= c <= p - 1 /\ c mod p <> 0)
  /\ (exists c, Client.create_commitment amount blinding = Some c
        /\ 1 <= c <= p - 1 /\ c mod p <> 0)
  /\ (exists plan,
        Client.build_confidential_transfer c1 c2 amount amount_blinding
          next_nonce draw = inr plan
        /\ 1 <= Client.TransferPlan.amount_commitment plan <= p - 1
        /\ (Client.mod_inverse (Client.TransferPlan.amount_commitment plan)
              Client.p
            * Client.TransferPlan.amount_commitment plan) mod p = 1)
  /\ match Client.build_confidential_transfer_from c1 c2 c3 amount
             amount_blinding next_nonce draw with
     | inr plan =>
         1 <= Client.TransferFromPlan.amount_commitment plan <= p - 1
         /\ (Client.mod_inverse
               (Client.TransferFromPlan.amount_commitment plan) Client.p
             * Client.TransferFromPlan.amount_commitment plan) mod p = 1
     | inl e => e <> Client.Digest_not_hexadecimal
     end
  /\ match Client.build_burn c1 amount amount_blinding next_nonce draw with
     | inr plan =>
         1 <= Client.BurnPlan.amount_commitment plan <= p - 1
         /\ (Client.mod_inverse (Client.BurnPlan.amount_commitment plan)
               Client.p
             * Client.BurnPlan.amount_commitment plan) mod p = 1
     | inl e => e <> Client.Digest_not_hexadecimal
     end.
Proof.
  assert (Hinv : forall c, 1 <= c <= p - 1 ->
            (Client.mod_inverse c Client.p * c) mod p = 1).
  { intros c Hc. change Client.p with p. rewrite client_mod_inverse_eq.
    apply mod_inverse_spec, field_element_nonzero, Hc. }
  split; [|split; [|split; [|split]]].
  - destruct (create_commitment_range amount blinding) as (c & Hc & Hr).
    exists c. auto using field_element_nonzero.
  - destruct (create_commitment_range amount blinding) as (c & Hc & Hr).
    exists c. rewrite client_create_commitment_eq.
    auto using field_element_nonzero.
  - unfold Client.build_confidential_transfer.
    destruct (client_commit_range amount
                (Client.blinding_or_random amount_blinding draw))
      as (ac & -> & Hac).
    cbn [mbind Client.plan_bind]. eexists. split; [reflexivity|]. cbn. auto.
  - unfold Client.build_confidential_transfer_from.
    destruct (client_commit_range amount
                (Client.blinding_or_random amount_blinding draw))
      as (ac & -> & Hac).
    cbn [mbind Client.plan_bind].
    destruct (Client.absent c1); [discriminate|].
    destruct (Client.absent c3); [discriminate|]. cbn. auto.
  - unfold Client.build_burn.
    destruct (Client.absent c1); [discriminate|].
    destruct (client_commit_range amount
                (Client.blinding_or_random amount_blinding draw))
      as (ac & -> & Hac).
    cbn [mbind Client.plan_bind]. cbn. auto.
Qed.

(** C10: [mint] checks nothing about the amount commitment beyond the
    multiplicative relation: called by the operator with the right nonce,
    amount commitment 0 and new receiver commitment 0, it is accepted for
    any receiver and stores 0 as the receiver's balance commitment. *)
Theorem C10_mint_accepts_zero_commitment
    (ctx : Ctx) (to : string) (amount : Q) (nonce : Z) (s : State) :
  caller ctx = operator (metadata s) ->
  nonce = get_nonce s (caller ctx) + 1 ->
  exists s',
    call ctx (Mint to amount 0 0 nonce) s = (Accepted, s')
    /\ balance_commitments s' !! to
       = Some {| commitment := 0; last_updated := block_num ctx;
                 updates := next_updates (balance_commitments s !! to) |}.
Proof.
  intros Hop Hn. run_call. rewrite Hop, String.eqb_refl. cbn.
  unfold get_nonce in Hn. rewrite Hop in Hn. rewrite <- Hn, Z.eqb_refl. cbn.
  unfold verify_commitment_addition. rewrite Z.mul_0_r.
  change (0 mod p) with 0. cbn.
  eexists. split; [reflexivity|]. cbn. apply lookup_insert_eq.
Qed.

Lemma C10_witness :
  exists s',
    call (at_height "operator" 1) (Mint "alice" (21 # 2) 0 0 1) genesis
    = (Accepted, s')
    /\ balance_commitments s' !! "alice"%string
       = Some {| commitment := 0; last_updated := 1;
                 updates := next_updates (balance_commitments genesis
                                          !! "alice"%string) |}.
Proof.
  apply (C10_mint_accepts_zero_commitment (at_height "operator" 1)
           "alice"%string (21 # 2) 1 genesis); reflexivity.
Defined.

End AlgebraClaims.

(** ** Further facts: arithmetic and commitments *)

Module ArithmeticFacts.
Import SHA3 Py Token FieldFacts DigestFacts CommitFacts.

Lemma pow_mod_order (a b : Z) :
  a mod p <> 0 -> 0 <= b -> a ^ (b mod (p - 1)) mod p = a ^ b mod p.
Proof.
  intros Ha Hb. pose proof p_gt_1 as Hp.
  assert (Hp1 : 0 < p - 1) by lia.
  pose proof (Z.mod_pos_bound b (p - 1) Hp1) as Hr.
  pose proof (Z.div_pos b (p - 1) Hb Hp1) as Hq.
  assert (E : a ^ b = (a ^ (p - 1)) ^ (b / (p - 1)) * a ^ (b mod (p - 1))).
  { rewrite <- Z.pow_mul_r, <- Z.pow_add_r by nia. f_equal.
    apply Z.div_mod. lia. }
  rewrite E, <- Z.mul_mod_idemp_l by lia.
  rewrite <- (Z.mod_pow_l (a ^ (p - 1)) (b / (p - 1)) p).
  rewrite (Z.fermat_nz p a p_prime Ha), Z.pow_1_l by lia.
  rewrite (Z.mod_1_l p), Z.mul_1_l by lia. reflexivity.
Qed.

End ArithmeticFacts.

Module ArithmeticProperties.
Import SHA3 Py Token FieldFacts DigestFacts CommitFacts ArithmeticFacts.

(** X1: for a positive modulus, [mod_exp] returns 1 for every exponent that
    is zero or negative (the loop body never runs), and the power reduced
    modulo the modulus for a positive exponent. *)
Theorem mod_exp_computes_power (base exponent modulus : Z) :
  0 < modulus ->
  mod_exp base exponent modulus
  = if exponent <=? 0 then 1 else base ^ exponent mod modulus.
Proof.
  intros Hm. unfold mod_exp.
  destruct (Z.eqb_spec exponent 0) as [->|Hnz]; [reflexivity|].
  destruct (Z.leb_spec exponent 0) as [Hle|Hpos].
  - unfold mod_exp_fuel. cbn [mod_exp_loop].
    destruct (Z.gtb_spec exponent 0); [lia|reflexivity].
  - rewrite (mod_exp_loop_spec modulus Hm)
      by (split; [lia|apply mod_exp_fuel_enough; lia]).
    cbn [default]. unfold from_option, id. rewrite Z.mul_1_l.
    apply Z.mod_pow_l.
Qed.

Lemma mod_exp_computes_power_witness :
  mod_exp 3 5 7 = if 5 <=? 0 then 1 else 3 ^ 5 mod 7.
Proof. apply (mod_exp_computes_power 3 5 7). lia. Defined.

(** X2: the planner's [mod_exp], which tests the low bit with [e & 1],
    returns what the ledger's returns on all arguments, and so does its
    [mod_inverse], which reduces its argument first, for a non-zero
    modulus. *)
Theorem planner_arithmetic_mirrors_ledger (x exponent modulus : Z) :
  Client.mod_exp x exponent modulus = mod_exp x exponent modulus
  /\ (modulus <> 0 ->
      Client.mod_inverse x modulus = mod_inverse x modulus).
Proof.
  split; [apply client_mod_exp_eq|].
  intros Hm. unfold Client.mod_inverse, mod_inverse.
  rewrite client_mod_exp_eq. unfold mod_exp.
  now rewrite Z.mod_mod by exact Hm.
Qed.

(** X3: the modulus [p = 2^255 - 19] is prime. *)
Theorem modulus_is_prime : Z.prime p /\ p = 2 ^ 255 - 19.
Proof. split; [exact p_prime|reflexivity]. Qed.

(** X4: for a blinding factor that is not negative, [create_commitment]
    returns [g^e * h^blinding mod p] with [e] the exponent of the value:
    reducing the blinding factor modulo [p - 1] does not change the
    commitment. *)
Theorem create_commitment_closed_form (value : value) (blinding : Z) :
  0 <= blinding ->
  exists e,
    Client.value_to_exponent value = Some e
    /\ Client.create_commitment value blinding
       = Some ((g ^ e * h ^ blinding) mod p)
    /\ create_commitment value blinding
       = Some ((g ^ e * h ^ blinding) mod p).
Proof.
  intros Hb. destruct (digest_int_total ("VAL|" +:+ str value)) as [n Hn].
  pose proof p_gt_1 as Hp.
  exists (n mod (p - 1)).
  assert (He : Client.value_to_exponent value = Some (n mod (p - 1))).
  { unfold Client.value_to_exponent, Client.sha3_hex. now rewrite Hn. }
  split; [exact He|].
  rewrite <- client_create_commitment_eq.
  assert (H : Client.create_commitment value blinding
              = Some ((g ^ (n mod (p - 1)) * h ^ blinding) mod p));
    [|now split].
  unfold Client.create_commitment. rewrite He. cbn [mbind option_bind].
  change Client.p with p. change Client.g with g. change Client.h with h.
  pose proof (Z.mod_pos_bound blinding (p - 1) ltac:(lia)) as Hbm.
  pose proof (Z.mod_pos_bound n (p - 1) ltac:(lia)) as Hnm.
  rewrite !client_mod_exp_eq, !mod_exp_spec by lia.
  rewrite (pow_mod_order h blinding);
    [|apply field_element_nonzero; pose proof h_range; lia|exact Hb].
  now rewrite <- Z.mul_mod by lia.
Qed.

Lemma create_commitment_closed_form_witness :
  exists e,
    Client.value_to_exponent (VInt 3) = Some e
    /\ Client.create_commitment (VInt 3) 777
       = Some ((g ^ e * h ^ 777) mod p)
    /\ create_commitment (VInt 3) 777 = Some ((g ^ e * h ^ 777) mod p).
Proof. apply (create_commitment_closed_form (VInt 3) 777). lia. Defined.

End ArithmeticProperties.

(** ** Further facts: what an accepted call writes *)

Module CallFacts.
Import Py Token Ledger Checks Views Histories FieldFacts LedgerFacts.






End CallFacts.

Module CallProperties.
Import Py Token Ledger Checks Scenario Views Histories FieldFacts LedgerFacts.
Import CallFacts.









End CallProperties.

(** ** Further facts: what the acceptance of each operation establishes *)

Module AcceptedFacts.
Import Py Token Ledger Checks Views Histories FieldFacts LedgerFacts CallFacts.







End AcceptedFacts.

(** ** Further facts: the supply check *)

(** Products modulo any modulus above 1. *)
Module ModularFacts.








End ModularFacts.

Module SupplyFacts.
Import Py Token Ledger Checks Scenario Views Histories.
Import FieldFacts CommitFacts LedgerFacts CallFacts AcceptedFacts ModularFacts.













End SupplyFacts.

Module SupplyProperties.
Import Py Token Ledger Checks Scenario Views Histories.
Import FieldFacts CommitFacts LedgerFacts CallFacts AcceptedFacts.
Import ModularFacts SupplyFacts.









(** X9: accepted operations alone can leave the ledger in a state where
    [verify_supply_invariant] reports failure: after a mint of the
    commitment 0, the next mint restarts the supply commitment from
    [ZERO_COMMITMENT] while the product of the records stays 0. *)
Theorem supply_check_can_fail :
  exists s,
    run_calls genesis zero_mint_then_mint = Some s
    /\ SupplyReport.ok (verify_supply_invariant s) = false
    /\ SupplyReport.product (verify_supply_invariant s) = 0
    /\ SupplyReport.expected (verify_supply_invariant s) = 5.
Proof.
  eexists. split; [vm_compute; reflexivity|].
  split; [|split]; vm_compute; reflexivity.
Qed.

End SupplyProperties.

(** ** Further facts: the wallet tracker *)

Module WalletProperties.
Import Py Token FieldFacts CommitFacts.

(** X10: on a tracker holding a field element, [apply_incoming] followed
    by [apply_outgoing] with the same amount commitment, or the two in the
    other order, gives the tracker back, provided the amount commitment is
    not a multiple of [p]. *)
Theorem wallet_round_trip (account : CommitmentAccount.t) (ac : Z) :
  0 <= CommitmentAccount.commitment account < p ->
  ac mod p <> 0 ->
  CommitmentAccount.apply_outgoing
    (CommitmentAccount.apply_incoming account ac) ac = account
  /\ CommitmentAccount.apply_incoming
       (CommitmentAccount.apply_outgoing account ac) ac = account.
Proof.
  intros Hc Hac. destruct account as [c]. cbn [CommitmentAccount.commitment] in Hc.
  unfold CommitmentAccount.apply_outgoing, CommitmentAccount.apply_incoming.
  cbn [CommitmentAccount.commitment]. change Client.p with p.
  rewrite client_mod_inverse_eq.
  rewrite unwind_multiplication, unwind_division by assumption.
  split; reflexivity.
Qed.

Lemma wallet_round_trip_witness :
  CommitmentAccount.apply_outgoing
    (CommitmentAccount.apply_incoming (CommitmentAccount.init (Some 7)) 5) 5
  = CommitmentAccount.init (Some 7)
  /\ CommitmentAccount.apply_incoming
       (CommitmentAccount.apply_outgoing (CommitmentAccount.init (Some 7)) 5)
       5
     = CommitmentAccount.init (Some 7).
Proof.
  apply (wallet_round_trip (CommitmentAccount.init (Some 7)) 5).
  - split; vm_compute; [discriminate|reflexivity].
  - vm_compute. discriminate.
Defined.

End WalletProperties.
